(** * Link prediction notebooks: edge features and edge-splitting chains

    Shallow embedding of the parts of the two notebooks
    (node2vec link prediction, GraphSAGE link prediction) that the
    specification talks about:
    - the four binary edge-feature operators and [transform]
      (node2vec notebook, cell "def operator_hadamard ...");
    - the plain-Python glue of both notebooks: the [values] dict
      comprehension, the choice of the largest connected component,
      the selection of the class-1 probability column and the loop that
      attaches node features;
    - the chains of [EdgeSplitter(...).train_test_split(...)] calls
      of both notebooks, over a model of the splitter taken from the
      specification (the splitter itself lives in the stellargraph
      library, outside this repository). *)

From Stdlib Require Import Reals Lra List Bool Arith Lia QArith Qround.
From Stdlib Require Strings.String Numbers.DecimalString.
Import ListNotations.

(** ** Edge-feature operators (numpy arrays of float64, modelled over R) *)

Module EdgeFeatures.

Open Scope R_scope.

(** A 1-d numpy array of node-embedding coordinates. *)
Definition vec := list R.

(** Elementwise numpy arithmetic on two 1-d arrays: equal shapes are
    combined pointwise, a length-1 array is broadcast against the
    other one, any other shape mismatch raises (None). *)
Definition ewise (f : R -> R -> R) (u v : vec) : option vec :=
  if Nat.eqb (length u) (length v) then Some (map (fun xy => f (fst xy) (snd xy)) (combine u v))
  else match u, v with
       | [a], _ => Some (map (fun y => f a y) v)
       | _, [b] => Some (map (fun x => f x b) u)
       | _, _ => None
       end.

(** Elementwise unary numpy function. *)
Definition emap (f : R -> R) (u : option vec) : option vec :=
  option_map (map f) u.

(** [return u*v] *)
Definition operator_hadamard (u v : vec) : option vec :=
  ewise Rmult u v.

(** [return (u+v)/2.0] *)
Definition operator_avg (u v : vec) : option vec :=
  emap (fun x => x / 2) (ewise Rplus u v).

(** [return (u-v)**2] *)
Definition operator_l2 (u v : vec) : option vec :=
  emap (fun x => x ^ 2) (ewise Rminus u v).

(** [return np.abs(u-v)] *)
Definition operator_l1 (u v : vec) : option vec :=
  emap Rabs (ewise Rminus u v).

(** [transform(model, edge_data, binary_operator)]: one row
    [binary_operator(model[ids[0]], model[ids[1]])] per node pair;
    a missing key in [model] (KeyError) or a failing operator aborts
    the whole call. *)
Fixpoint transform {Node : Type} (model : Node -> option vec)
    (edge_data : list (Node * Node))
    (binary_operator : vec -> vec -> option vec) : option (list vec) :=
  match edge_data with
  | [] => Some []
  | ids :: rest =>
      match model (fst ids), model (snd ids) with
      | Some a, Some b =>
          match binary_operator a b, transform model rest binary_operator with
          | Some x, Some xs => Some (x :: xs)
          | _, _ => None
          end
      | _, _ => None
      end
  end.

Definition swap_pair {Node : Type} (ids : Node * Node) : Node * Node :=
  (snd ids, fst ids).

End EdgeFeatures.

(** ** Proofs about the edge-feature operators *)

Module EdgeFeaturesFacts.

Import EdgeFeatures.
Open Scope R_scope.

Section Symmetric.

Variable f : R -> R -> R.
Variable g : R -> R.
Hypothesis g_f_sym : forall a b, g (f a b) = g (f b a).

Lemma map_combine_sym (u v : vec) :
  map g (map (fun xy => f (fst xy) (snd xy)) (combine u v))
  = map g (map (fun xy => f (fst xy) (snd xy)) (combine v u)).
Proof.
  revert v; induction u as [|a u IH]; intros [|b v]; simpl; try reflexivity.
  rewrite g_f_sym, IH; reflexivity.
Qed.

Lemma ewise_sym (u v : vec) :
  emap g (ewise f u v) = emap g (ewise f v u).
Proof.
  unfold ewise, emap.
  rewrite (Nat.eqb_sym (length v) (length u)).
  destruct (Nat.eqb (length u) (length v)) eqn:Hl.
  - simpl; f_equal; apply map_combine_sym.
  - apply Nat.eqb_neq in Hl.
    destruct u as [|a [|a' u]], v as [|b [|b' v]]; cbn -[map] in *;
      try reflexivity; try lia;
      f_equal; rewrite !map_map; apply map_ext; intros; apply g_f_sym.
Qed.

End Symmetric.

Lemma emap_id (o : option vec) : emap (fun x => x) o = o.
Proof. destruct o; simpl; [rewrite map_id|]; reflexivity. Qed.

Lemma hadamard_sym (u v : vec) : operator_hadamard u v = operator_hadamard v u.
Proof.
  unfold operator_hadamard.
  rewrite <- (emap_id (ewise Rmult u v)), <- (emap_id (ewise Rmult v u)).
  apply ewise_sym; intros; apply Rmult_comm.
Qed.

Lemma avg_sym (u v : vec) : operator_avg u v = operator_avg v u.
Proof.
  unfold operator_avg; apply ewise_sym; intros; rewrite Rplus_comm; reflexivity.
Qed.

Lemma l2_sym (u v : vec) : operator_l2 u v = operator_l2 v u.
Proof.
  unfold operator_l2; apply ewise_sym; intros; simpl; ring.
Qed.

Lemma l1_sym (u v : vec) : operator_l1 u v = operator_l1 v u.
Proof.
  unfold operator_l1; apply ewise_sym; intros; apply Rabs_minus_sym.
Qed.

Lemma ewise_some_eq_length (f : R -> R -> R) (u v : vec) :
  length u = length v -> exists w, ewise f u v = Some w /\ length w = length u.
Proof.
  intros H; unfold ewise; rewrite H, Nat.eqb_refl.
  eexists; split; [reflexivity|].
  rewrite length_map, length_combine, H; lia.
Qed.

Lemma transform_swap {Node : Type} (model : Node -> option vec)
    (op : vec -> vec -> option vec) :
  (forall u v, op u v = op v u) ->
  forall edge_data,
    transform model (map swap_pair edge_data) op = transform model edge_data op.
Proof.
  intros Hop edge_data; induction edge_data as [|[a b] rest IH]; simpl; [reflexivity|].
  rewrite IH.
  destruct (model a) as [x|], (model b) as [y|]; try reflexivity.
  rewrite Hop; reflexivity.
Qed.

(** Claim C10: each of the four binary operators is symmetric in its
    arguments (for all vectors, in particular all equal-length ones),
    hence the features computed by [transform] are the same when every
    node pair of [edge_data] is given in the opposite orientation. *)
Theorem binary_operators_symmetric :
  (forall u v, operator_hadamard u v = operator_hadamard v u) /\
  (forall u v, operator_avg u v = operator_avg v u) /\
  (forall u v, operator_l1 u v = operator_l1 v u) /\
  (forall u v, operator_l2 u v = operator_l2 v u) /\
  (forall (Node : Type) (model : Node -> option vec) edge_data,
      (transform model (map swap_pair edge_data) operator_hadamard
       = transform model edge_data operator_hadamard) /\
      (transform model (map swap_pair edge_data) operator_avg
       = transform model edge_data operator_avg) /\
      (transform model (map swap_pair edge_data) operator_l1
       = transform model edge_data operator_l1) /\
      (transform model (map swap_pair edge_data) operator_l2
       = transform model edge_data operator_l2)).
Proof.
  split; [exact hadamard_sym|]. split; [exact avg_sym|].
  split; [exact l1_sym|]. split; [exact l2_sym|].
  intros Node model edge_data.
  repeat split; apply transform_swap;
    [exact hadamard_sym | exact avg_sym | exact l1_sym | exact l2_sym].
Qed.

End EdgeFeaturesFacts.

(** ** Edge splitter and the notebooks' split chains *)

Module EdgeSplitter.

Open Scope nat_scope.

Definition node := nat.
Definition pair := (node * node)%type.

(** An undirected simple graph: its node set and its edge list. *)
Record graph := mkGraph { nodes : list node; edges : list pair }.

Definition mem (v : node) (l : list node) : bool := existsb (Nat.eqb v) l.

(** [e] is the unordered pair {a, b}. *)
Definition same_pair (e : pair) (a b : node) : bool :=
  (Nat.eqb (fst e) a && Nat.eqb (snd e) b) || (Nat.eqb (fst e) b && Nat.eqb (snd e) a).

Definition has_edge (g : graph) (a b : node) : bool :=
  existsb (fun e => same_pair e a b) (edges g).

Definition remove_edge (g : graph) (a b : node) : graph :=
  mkGraph (nodes g) (filter (fun e => negb (same_pair e a b)) (edges g)).

Definition neighbors (g : graph) (v : node) : list node :=
  flat_map (fun e => if Nat.eqb (fst e) v then [snd e]
                     else if Nat.eqb (snd e) v then [fst e] else []) (edges g).

(** Graph traversal from a work list; every pop is paid by one unit of
    fuel, and [2 |E| + 2] units cover all pops of a full traversal. *)
Fixpoint reach (fuel : nat) (g : graph) (todo seen : list node) : list node :=
  match fuel with
  | 0 => seen
  | S fuel' =>
      match todo with
      | [] => seen
      | v :: rest =>
          if mem v seen then reach fuel' g rest seen
          else reach fuel' g (rest ++ neighbors g v) (v :: seen)
      end
  end.

Definition is_connected (g : graph) : bool :=
  match nodes g with
  | [] => true
  | v :: _ =>
      let r := reach (2 * length (edges g) + 2) g [v] [] in
      forallb (fun w => mem w r) (nodes g)
  end.

Inductive split_error :=
| InsufficientEdgesError (removed : nat)
| InsufficientNonEdgesError.

Inductive result (A : Type) :=
| Ok (a : A)
| Err (e : split_error).
Arguments Ok {A} a.
Arguments Err {A} e.

Definition bind {A B : Type} (r : result A) (k : A -> result B) : result B :=
  match r with Ok a => k a | Err e => Err e end.

Notation "'let*' x := r 'in' k" := (bind r (fun x => k))
  (at level 200, x pattern, r at level 100, k at level 200).

(** Modelled from the spec: the target number of positive samples of
    stellargraph's [EdgeSplitter.train_test_split] (library code, not in
    this repository), "exactly round(p * |E|)"; p is a rational and the
    rounding is to the nearest integer, halves upwards. *)
Definition target_count (p : Q) (nE : nat) : nat :=
  Z.to_nat (Qfloor (p * inject_Z (Z.of_nat nE) + (1 # 2))).

(** Modelled from the spec: positive sampling of the "global" method.
    Candidate edges come from an explicit random stream [cands] (drawn
    without replacement); a candidate is removed when it is an edge of
    the graph under construction and, with [keep_connected], its removal
    leaves that graph connected.  Running out of candidates before [n]
    removals fails with [InsufficientEdgesError] and the count removed. *)
Fixpoint sample_positive (keep_connected : bool) (g : graph) (n : nat)
    (cands : list pair) (acc : list pair) : result (graph * list pair) :=
  match n with
  | 0 => Ok (g, rev acc)
  | S n' =>
      match cands with
      | [] => Err (InsufficientEdgesError (length acc))
      | (a, b) :: rest =>
          if has_edge g a b
             && (negb keep_connected || is_connected (remove_edge g a b))
          then sample_positive keep_connected (remove_edge g a b) n' rest ((a, b) :: acc)
          else sample_positive keep_connected g n rest acc
      end
  end.

(** Modelled from the spec: negative sampling.  Candidate pairs come
    from an explicit random stream [cands] (its finiteness is the retry
    cap); a pair (a, b) is kept when a <> b, both are nodes, it is not an
    edge of the reference graph [ref] and it was not drawn before. *)
Fixpoint sample_negative (ref : graph) (vs : list node) (n : nat)
    (cands : list pair) (acc : list pair) : result (list pair) :=
  match n with
  | 0 => Ok (rev acc)
  | S n' =>
      match cands with
      | [] => Err InsufficientNonEdgesError
      | (a, b) :: rest =>
          if negb (Nat.eqb a b) && mem a vs && mem b vs
             && negb (has_edge ref a b)
             && negb (existsb (fun e => same_pair e a b) acc)
          then sample_negative ref vs n' rest ((a, b) :: acc)
          else sample_negative ref vs n rest acc
      end
  end.

(** The random source of one call: positive then negative candidates. *)
Record randomness := mkRandomness { pos_cands : list pair; neg_cands : list pair }.

(** A labelled sample: the node pair and 1 (edge) or 0 (non-edge). *)
Definition sample := (pair * nat)%type.

(** Modelled from the spec: [EdgeSplitter(g, g_master).train_test_split(
    p, method="global", keep_connected)].  The rejection reference for
    negative sampling is [g_master] when the caller passes one; without
    it, the input graph [g] is the only graph the splitter holds and is
    the reference.  Positives come first in the sample list. *)
Definition train_test_split (g : graph) (g_master : option graph) (p : Q)
    (keep_connected : bool) (rs : randomness) : result (graph * list sample) :=
  let ref := match g_master with Some m => m | None => g end in
  let n := target_count p (length (edges g)) in
  let* (g', pos) := sample_positive keep_connected g n (pos_cands rs) [] in
  let* neg := sample_negative ref (nodes g) n (neg_cands rs) [] in
  Ok (g', map (fun e => (e, 1)) pos ++ map (fun e => (e, 0)) neg).

(** node2vec notebook: [EdgeSplitter(g_nx)] with p=0.15, then
    [EdgeSplitter(g_test, g_nx)] with p=0.15, then
    [EdgeSplitter(g_val, g_nx)] with p=0.1, all [method='global'] and the
    default [keep_connected=False].  Returns the three sample sets. *)
Definition node2vec_chain (g_nx : graph) (rs_test rs_val rs_train : randomness)
    : result (list (list sample)) :=
  let* (g_test, edge_data_test) := train_test_split g_nx None (15 # 100) false rs_test in
  let* (g_val, edge_data_val) := train_test_split g_test (Some g_nx) (15 # 100) false rs_val in
  let* (g_train, edge_data_train) := train_test_split g_val (Some g_nx) (1 # 10) false rs_train in
  Ok [edge_data_test; edge_data_val; edge_data_train].

(** GraphSAGE notebook: [EdgeSplitter(g_nx)] then [EdgeSplitter(G_test)],
    both with p=0.1, [method="global"], [keep_connected=True]. *)
Definition graphsage_chain (g_nx : graph) (rs_test rs_train : randomness)
    : result (list (list sample)) :=
  let* (G_test, edge_test) := train_test_split g_nx None (1 # 10) true rs_test in
  let* (G_train, edge_train) := train_test_split G_test None (1 # 10) true rs_train in
  Ok [edge_test; edge_train].

(** No negative sample of any stage is an edge of [g]. *)
Definition negatives_avoid (g : graph) (stages : list (list sample)) : Prop :=
  forall s a b, In s stages -> In ((a, b), 0) s -> has_edge g a b = false.

End EdgeSplitter.

Module EdgeSplitterFacts.

Import EdgeSplitter.

Lemma sample_negative_not_edge ref vs cands : forall n acc out,
  sample_negative ref vs n cands acc = Ok out ->
  (forall a b, In (a, b) acc -> has_edge ref a b = false) ->
  forall a b, In (a, b) out -> has_edge ref a b = false.
Proof.
  induction cands as [|[x y] rest IH]; intros [|n] acc out Hs Hacc;
    simpl in Hs; try discriminate.
  - injection Hs as <-; intros a b Hin; apply Hacc; apply in_rev; exact Hin.
  - injection Hs as <-; intros a b Hin; apply Hacc; apply in_rev; exact Hin.
  - destruct (negb (Nat.eqb x y) && mem x vs && mem y vs && negb (has_edge ref x y)
              && negb (existsb (fun e => same_pair e x y) acc)) eqn:Hc.
    + apply (IH n ((x, y) :: acc) out Hs).
      intros a b [Heq | Hin]; [|apply Hacc; exact Hin].
      injection Heq as <- <-.
      apply andb_prop in Hc as [Hc _]; apply andb_prop in Hc as [_ Hc].
      apply negb_true_iff in Hc; exact Hc.
    + apply (IH (S n) acc out Hs Hacc).
Qed.

Lemma train_test_split_negatives g g_master p kc rs g' s :
  train_test_split g g_master p kc rs = Ok (g', s) ->
  forall a b, In ((a, b), 0) s ->
    has_edge (match g_master with Some m => m | None => g end) a b = false.
Proof.
  unfold train_test_split, bind.
  destruct (sample_positive _ _ _ _ _) as [[g1 pos]|e]; [|discriminate].
  destruct (sample_negative _ _ _ _ _) as [neg|e] eqn:Hn; [|discriminate].
  intros H; injection H as <- <-; intros a b Hin.
  apply in_app_or in Hin as [Hin | Hin];
    apply in_map_iff in Hin as [[x y] [Heq Hin]]; inversion Heq; subst.
  exact (sample_negative_not_edge _ _ _ _ _ _ Hn
             (fun a b (H : In (a, b) []) => match H with end) a b Hin).
Qed.

(** In the node2vec notebook every stage rejects negatives against the
    full graph [g_nx]: its first stage has [g_nx] as input, the later
    ones receive it as [g_master]. *)
Lemma node2vec_chain_negatives_avoid g_nx rs1 rs2 rs3 stages :
  node2vec_chain g_nx rs1 rs2 rs3 = Ok stages -> negatives_avoid g_nx stages.
Proof.
  unfold node2vec_chain, bind at 1.
  destruct (train_test_split g_nx None _ _ rs1) as [[g1 s1]|e] eqn:H1; [|discriminate].
  unfold bind at 1.
  destruct (train_test_split g1 (Some g_nx) _ _ rs2) as [[g2 s2]|e] eqn:H2; [|discriminate].
  unfold bind.
  destruct (train_test_split g2 (Some g_nx) _ _ rs3) as [[g3 s3]|e] eqn:H3; [|discriminate].
  intros H; injection H as <-.
  intros s a b Hs Hin.
  destruct Hs as [<- | [<- | [<- | []]]].
  - exact (train_test_split_negatives _ _ _ _ _ _ _ H1 a b Hin).
  - exact (train_test_split_negatives _ _ _ _ _ _ _ H2 a b Hin).
  - exact (train_test_split_negatives _ _ _ _ _ _ _ H3 a b Hin).
Qed.

Definition g5 : graph :=
  mkGraph [0; 1; 2; 3; 4] [(0, 1); (1, 2); (2, 3); (3, 4); (4, 0); (0, 2); (0, 3)].

Definition rs5_test : randomness := mkRandomness [(0, 1)] [(1, 3)].
Definition rs5_train : randomness := mkRandomness [(2, 3)] [(0, 1)].

(** Claim C2 (counterexample on the GraphSAGE notebook's chain): its
    second stage [EdgeSplitter(G_test)] is not given the full graph, so
    on the connected 5-node, 7-edge graph [g5] the train stage draws the
    pair (0, 1) as a negative sample although (0, 1) is an edge of the
    original graph (removed as a positive by the test stage). *)
Theorem graphsage_chain_negative_is_original_edge :
  graphsage_chain g5 rs5_test rs5_train
  = Ok [[((0, 1), 1); ((1, 3), 0)]; [((2, 3), 1); ((0, 1), 0)]]
  /\ has_edge g5 0 1 = true
  /\ ~ negatives_avoid g5 [[((0, 1), 1); ((1, 3), 0)]; [((2, 3), 1); ((0, 1), 0)]].
Proof.
  split; [vm_compute; reflexivity|]. split; [reflexivity|].
  intros H.
  assert (Hf : has_edge g5 0 1 = false).
  { apply (H [((2, 3), 1); ((0, 1), 0)]); simpl; auto. }
  discriminate Hf.
Qed.

End EdgeSplitterFacts.

(** ** Data loading and classifier glue of the notebooks (plain Python) *)

Module Loading.

Import EdgeSplitter.
Import String.

(** A Python dict with string keys, in insertion order. *)
Definition dict (V : Type) := list (String.string * V).

(** [d.get(k)]: [None] for a missing key. *)
Fixpoint lookup {V : Type} (d : dict V) (k : String.string) : option V :=
  match d with
  | [] => None
  | (k', v) :: r => if String.eqb k' k then Some v else lookup r k
  end.

(** [d[k] = v]: an existing key keeps its place and gets the new value,
    a new key is appended. *)
Fixpoint setitem {V : Type} (d : dict V) (k : String.string) (v : V) : dict V :=
  match d with
  | [] => [(k, v)]
  | (k', v') :: r =>
      if String.eqb k' k then (k', v) :: r else (k', v') :: setitem r k v
  end.

(** A cell of [row.tolist()] of the [cora.content] table read with
    [header=None]: the paper id and the word flags are ints, the subject
    is a string. *)
Inductive cell :=
| CInt (z : Z)
| CStr (s : String.string).

(** Python's [str] on a cell: decimal notation for an int. *)
Definition str (c : cell) : String.string :=
  match c with
  | CInt z => DecimalString.NilEmpty.string_of_int (Z.to_int z)
  | CStr s => s
  end.

(** [row.tolist()[0]] and [row.tolist()[-1]]; [None] is IndexError. *)
Definition first_cell (row : list cell) : option cell := hd_error row.
Definition last_cell (row : list cell) : option cell := hd_error (rev row).

Definition row_key (row : list cell) : option String.string :=
  option_map str (first_cell row).

Fixpoint values_from (d : dict cell) (rows : list (list cell)) : option (dict cell) :=
  match rows with
  | [] => Some d
  | row :: rest =>
      match first_cell row, last_cell row with
      | Some c0, Some cl => values_from (setitem d (str c0) cl) rest
      | _, _ => None
      end
  end.

(** [values = { str(row.tolist()[0]): row.tolist()[-1]
                for _, row in node_attr.iterrows()}] *)
Definition values (rows : list (list cell)) : option (dict cell) :=
  values_from [] rows.

(** [max(items, key=key)]: ValueError ([None]) on no items; a later item
    replaces the current best only when its key is strictly larger. *)
Fixpoint max_key_from {A : Type} (key : A -> nat) (best : A) (l : list A) : A :=
  match l with
  | [] => best
  | x :: r =>
      if Nat.ltb (key best) (key x) then max_key_from key x r
      else max_key_from key best r
  end.

Definition max_key {A : Type} (key : A -> nat) (l : list A) : option A :=
  match l with
  | [] => None
  | x :: r => Some (max_key_from key x r)
  end.

(** [g_nx.subgraph(c).copy()]: the subgraph induced by the nodes [c]. *)
Definition subgraph (g : graph) (c : list node) : graph :=
  mkGraph (filter (fun v => mem v c) (nodes g))
          (filter (fun e => mem (fst e) c && mem (snd e) c) (edges g)).

(** [len(graph)]: its number of nodes. *)
Definition graph_len (g : graph) : nat := List.length (nodes g).

(** [g_nx_ccs = (g_nx.subgraph(c).copy() for c in ccs)];
    [g_nx = max(g_nx_ccs, key=len)], where [ccs] is the list of
    connected components networkx enumerates. *)
Definition largest_component (g_nx : graph) (ccs : list (list node)) : option graph :=
  max_key graph_len (map (subgraph g_nx) ccs).

(** [preds[:, j]]: IndexError ([None]) when a row is too short. *)
Fixpoint column {A : Type} (j : nat) (preds : list (list A)) : option (list A) :=
  match preds with
  | [] => Some []
  | row :: rest =>
      match nth_error row j, column j rest with
      | Some x, Some xs => Some (x :: xs)
      | _, _ => None
      end
  end.

(** [if clf.classes_[0]==1: preds = preds[:, 0] else: preds = preds[:, 1]] *)
Definition select_positive {A : Type} (classes : list Z) (preds : list (list A))
    : option (list A) :=
  match classes with
  | [] => None
  | c0 :: _ => column (if Z.eqb c0 1 then 0 else 1) preds
  end.

(** Node attribute values of the GraphSAGE notebook. *)
Inductive attr_value :=
| AStr (s : String.string)
| AFeat (f : list Z).

(** The per-node attribute dicts of a networkx graph. *)
Definition node_store := list (node * dict attr_value).

(** [g_nx.nodes[nid][k] = v]: KeyError ([None]) when [nid] is not a node. *)
Fixpoint set_node_attr (st : node_store) (nid : node) (k : String.string)
    (v : attr_value) : option node_store :=
  match st with
  | [] => None
  | (n, a) :: r =>
      if Nat.eqb n nid then Some ((n, setitem a k v) :: r)
      else option_map (cons (n, a)) (set_node_attr r nid k v)
  end.

Definition feature_key : String.string := "feature"%string.
Definition paper : String.string := "paper"%string.

(** [for nid, f in pairs:
       g_nx.nodes[nid][TYPE_ATTR_NAME] = "paper"
       g_nx.nodes[nid]["feature"] = f] *)
Fixpoint attach_features (type_attr_name : String.string) (st : node_store)
    (pairs : list (node * list Z)) : option node_store :=
  match pairs with
  | [] => Some st
  | (nid, f) :: rest =>
      match set_node_attr st nid type_attr_name (AStr paper) with
      | Some st1 =>
          match set_node_attr st1 nid feature_key (AFeat f) with
          | Some st2 => attach_features type_attr_name st2 rest
          | None => None
          end
      | None => None
      end
  end.

(** [node_data = node_data[node_data.index.isin(list(g_nx.nodes()))]] *)
Definition keep_graph_rows (g_nodes : list node) (node_data : list (node * list Z))
    : list (node * list Z) :=
  filter (fun r => mem (fst r) g_nodes) node_data.

(** Cells 9, 13 and 16 of the GraphSAGE notebook: keep the rows of the
    nodes of the graph, take [node_features = node_data[...].values] and
    attach [zip(node_data.index, node_features)] to the graph's nodes. *)
Definition add_node_data (type_attr_name : String.string) (st : node_store)
    (node_data : list (node * list Z)) : option node_store :=
  let node_data := keep_graph_rows (map fst st) node_data in
  let node_features := map snd node_data in
  attach_features type_attr_name st (combine (map fst node_data) node_features).

End Loading.

Module LoadingFacts.

Import EdgeSplitter Loading.

Lemma lookup_setitem {V : Type} (d : dict V) k v k' :
  lookup (setitem d k v) k' = if String.eqb k k' then Some v else lookup d k'.
Proof.
  induction d as [|[k0 v0] r IH]; simpl.
  - rewrite String.eqb_sym; destruct (String.eqb k' k); reflexivity.
  - destruct (String.eqb k0 k) eqn:E0; simpl.
    + apply String.eqb_eq in E0; subst k0.
      destruct (String.eqb k k'); reflexivity.
    + rewrite IH.
      destruct (String.eqb k0 k') eqn:E1; [|reflexivity].
      apply String.eqb_eq in E1; subst k0.
      rewrite String.eqb_sym, E0; reflexivity.
Qed.

Lemma in_keys_setitem {V : Type} (d : dict V) k v k' :
  In k' (map fst (setitem d k v)) <-> k' = k \/ In k' (map fst d).
Proof.
  induction d as [|[k0 v0] r IH]; simpl.
  - split; intros [H|[]]; left; symmetry; exact H.
  - destruct (String.eqb k0 k) eqn:E0; simpl.
    + apply String.eqb_eq in E0; subst k0.
      split; [intros [H|H]; [left; symmetry; exact H | right; right; exact H]|].
      intros [H|[H|H]]; [left; symmetry; exact H | left; exact H | right; exact H].
    + rewrite IH. tauto.
Qed.

Lemma nodup_setitem {V : Type} (d : dict V) k v :
  NoDup (map fst d) -> NoDup (map fst (setitem d k v)).
Proof.
  induction d as [|[k0 v0] r IH]; simpl; intros Hd.
  - constructor; [intros []|constructor].
  - inversion Hd as [|x l Hnot Hr]; subst.
    destruct (String.eqb k0 k) eqn:E0; simpl.
    + constructor; assumption.
    + constructor; [|exact (IH Hr)].
      rewrite in_keys_setitem; intros [<- | Hin]; [|contradiction].
      rewrite String.eqb_refl in E0; discriminate.
Qed.

(** The row whose first cell prints as [k] and that comes last. *)
Definition key_is (k : String.string) (row : list cell) : bool :=
  match row_key row with Some k' => String.eqb k' k | None => false end.

Definition last_row_with_key (rows : list (list cell)) k : option (list cell) :=
  hd_error (rev (filter (key_is k) rows)).

Lemma hd_error_app_single {A : Type} (l : list A) x :
  hd_error (l ++ [x]) = match hd_error l with Some y => Some y | None => Some x end.
Proof. destruct l; reflexivity. Qed.

Lemma values_from_lookup rows : forall d d' k,
  values_from d rows = Some d' ->
  lookup d' k = match last_row_with_key rows k with
                | Some row => last_cell row
                | None => lookup d k
                end.
Proof.
  unfold last_row_with_key.
  induction rows as [|row rest IH]; intros d d' k H; simpl in H.
  - injection H as <-; reflexivity.
  - destruct (first_cell row) as [c0|] eqn:Hf; [|discriminate].
    destruct (last_cell row) as [cl|] eqn:Hl; [|discriminate].
    rewrite (IH _ _ k H), lookup_setitem.
    assert (Hk : key_is k row = String.eqb (str c0) k)
      by (unfold key_is, row_key; rewrite Hf; reflexivity).
    simpl filter; rewrite Hk.
    destruct (String.eqb (str c0) k) eqn:Ek.
    + simpl rev; rewrite hd_error_app_single.
      destruct (hd_error (rev (filter (key_is k) rest))); [reflexivity|exact (eq_sym Hl)].
    + reflexivity.
Qed.

Lemma values_from_keys rows : forall d d',
  values_from d rows = Some d' ->
  NoDup (map fst d) -> NoDup (map fst d') /\
  (forall k, In k (map fst d') <->
             In k (map fst d) \/ exists row, In row rows /\ row_key row = Some k).
Proof.
  induction rows as [|row rest IH]; intros d d' H Hd; simpl in H.
  - injection H as <-; split; [exact Hd|].
    intros k; split; [tauto|]. intros [Hk | [row [[] _]]]; exact Hk.
  - destruct (first_cell row) as [c0|] eqn:Hf; [|discriminate].
    destruct (last_cell row) as [cl|] eqn:Hl; [|discriminate].
    destruct (IH _ _ H (nodup_setitem d _ _ Hd)) as [Hn Hk].
    assert (Hr : row_key row = Some (str c0))
      by (unfold row_key; rewrite Hf; reflexivity).
    split; [exact Hn|]. intros k; rewrite Hk, in_keys_setitem.
    split.
    + intros [[-> | Hin] | [r [Hr' Hrk]]].
      * right; exists row; split; [left; reflexivity | exact Hr].
      * left; exact Hin.
      * right; exists r; split; [right; exact Hr' | exact Hrk].
    + intros [Hin | [r [[<- | Hr'] Hrk]]].
      * left; right; exact Hin.
      * rewrite Hr in Hrk; injection Hrk as <-; left; left; reflexivity.
      * right; exists r; split; assumption.
Qed.

Lemma values_from_none rows : forall d,
  values_from d rows = None <-> In [] rows.
Proof.
  induction rows as [|row rest IH]; intros d; simpl.
  - split; [discriminate | intros []].
  - destruct row as [|c0 r]; simpl.
    + split; [intros _; left; reflexivity | reflexivity].
    + unfold last_cell; simpl rev.
      destruct (rev r ++ [c0]) eqn:E; [destruct (rev r); discriminate|].
      simpl; rewrite IH. split; [intros H; right; exact H|].
      intros [H | H]; [discriminate | exact H].
Qed.

(** The dict comprehension [values] maps a key [k] to the last cell of
    the last row whose first cell prints as [k]; a key printed by no row
    is missing. *)
Theorem values_lookup_last_row rows d k :
  values rows = Some d ->
  lookup d k = match last_row_with_key rows k with
               | Some row => last_cell row
               | None => None
               end.
Proof. intros H; exact (values_from_lookup rows [] d k H). Qed.

(** The keys of [values] are distinct and are exactly the printed first
    cells of the rows. *)
Theorem values_keys rows d :
  values rows = Some d ->
  NoDup (map fst d) /\
  (forall k, In k (map fst d) <-> exists row, In row rows /\ row_key row = Some k).
Proof.
  intros H; destruct (values_from_keys rows [] d H (NoDup_nil _)) as [Hn Hk].
  split; [exact Hn|]. intros k; rewrite Hk; simpl; tauto.
Qed.

(** The comprehension raises IndexError exactly when some row is empty. *)
Theorem values_index_error rows :
  values rows = None <-> In [] rows.
Proof. apply values_from_none. Qed.

Lemma max_key_from_spec {A : Type} (key : A -> nat) l : forall best m,
  max_key_from key best l = m ->
  In m (best :: l) /\
  (forall x, In x (best :: l) -> key x <= key m) /\
  exists pre post, best :: l = pre ++ m :: post /\ forall x, In x pre -> key x < key m.
Proof.
  induction l as [|x r IH]; intros best m H; simpl in H.
  - subst m; split; [left; reflexivity|]. split.
    + intros x [<- | []]; lia.
    + exists [], []; split; [reflexivity | intros x []].
  - destruct (Nat.ltb (key best) (key x)) eqn:Hlt.
    + apply Nat.ltb_lt in Hlt.
      destruct (IH x m H) as [Hin [Hmax [pre [post [Heq Hpre]]]]].
      split; [right; exact Hin|]. split.
      * intros y [<- | Hy]; [specialize (Hmax x (or_introl eq_refl)); lia|].
        apply Hmax; exact Hy.
      * exists (best :: pre), post; split; [rewrite Heq; reflexivity|].
        intros y [<- | Hy]; [specialize (Hmax x (or_introl eq_refl)); lia|].
        apply Hpre; exact Hy.
    + apply Nat.ltb_ge in Hlt.
      destruct (IH best m H) as [Hin [Hmax [pre [post [Heq Hpre]]]]].
      split; [destruct Hin as [<- | Hin]; [left; reflexivity | right; right; exact Hin]|].
      split.
      * intros y [<- | [<- | Hy]].
        -- apply Hmax; left; reflexivity.
        -- specialize (Hmax best (or_introl eq_refl)); lia.
        -- apply Hmax; right; exact Hy.
      * destruct pre as [|b pre'].
        -- simpl in Heq; injection Heq as <- <-.
           exists [], (x :: r); split; [reflexivity | intros y []].
        -- simpl in Heq; injection Heq as Hb0 Hr; subst b.
           exists (best :: x :: pre'), post; split; [rewrite Hr; reflexivity|].
           assert (Hb : key best < key m) by (apply Hpre; left; reflexivity).
           intros y [<- | [<- | Hy]]; [exact Hb | lia | apply Hpre; right; exact Hy].
Qed.

(** [max(g_nx_ccs, key=len)] raises ValueError exactly when there is no
    component; otherwise it returns the subgraph induced by one of the
    components, with at least as many nodes as every other component's,
    and every component listed before it has strictly fewer nodes. *)
Theorem largest_component_spec g_nx ccs :
  (largest_component g_nx ccs = None <-> ccs = []) /\
  forall h, largest_component g_nx ccs = Some h ->
    (exists c, In c ccs /\ h = subgraph g_nx c) /\
    (forall c, In c ccs -> graph_len (subgraph g_nx c) <= graph_len h) /\
    exists pre post, ccs = pre ++ post /\
      (exists c post', post = c :: post' /\ h = subgraph g_nx c) /\
      forall c, In c pre -> graph_len (subgraph g_nx c) < graph_len h.
Proof.
  unfold largest_component, max_key.
  split.
  - destruct ccs; simpl; split; congruence.
  - intros h H.
    destruct ccs as [|c0 cs]; [discriminate|]; simpl in H; injection H as H.
    destruct (max_key_from_spec graph_len _ _ _ H) as [Hin [Hmax [pre [post [Heq Hpre]]]]].
    change (subgraph g_nx c0 :: map (subgraph g_nx) cs) with (map (subgraph g_nx) (c0 :: cs)) in *.
    split; [|split].
    + apply in_map_iff in Hin as [c [<- Hc]]; exists c; split; [exact Hc | reflexivity].
    + intros c Hc; apply Hmax, in_map; exact Hc.
    + apply map_eq_app in Heq as [pre0 [post0 [Hsplit [Hpre0 Hpost0]]]].
      apply map_eq_cons in Hpost0 as [c [post' [Hpost' [Hc _]]]].
      exists pre0, post0; split; [exact Hsplit|]. split.
      * exists c, post'; split; [exact Hpost' | symmetry; exact Hc].
      * intros c' Hc'; apply Hpre; rewrite <- Hpre0; apply in_map; exact Hc'.
Qed.

Lemma column_spec {A : Type} (j : nat) (preds : list (list A)) :
  (forall row, In row preds -> j < List.length row) ->
  exists col, column j preds = Some col /\ List.length col = List.length preds /\
    forall i row, nth_error preds i = Some row -> nth_error col i = nth_error row j.
Proof.
  induction preds as [|row rest IH]; intros Hrows; simpl.
  - exists []; split; [reflexivity|]; split; [reflexivity|].
    intros [|i] row H; discriminate.
  - destruct (nth_error row j) as [x|] eqn:Hx.
    2:{ apply nth_error_None in Hx; specialize (Hrows row (or_introl eq_refl)); lia. }
    destruct IH as [col [Hcol [Hlen Hnth]]]; [intros r Hr; apply Hrows; right; exact Hr|].
    rewrite Hcol; exists (x :: col); split; [reflexivity|]; split; [simpl; lia|].
    intros [|i] r Hr; simpl in Hr.
    + injection Hr as <-; rewrite Hx; reflexivity.
    + apply Hnth; exact Hr.
Qed.

(** With the two classes [0] and [1] (in either order) and a probability
    row of two entries per sample, the selection keeps, for every sample,
    the entry of the column whose class is [1]. *)
Theorem select_positive_class_one {A : Type} (classes : list Z) (preds : list (list A)) :
  (classes = [0%Z; 1%Z] \/ classes = [1%Z; 0%Z]) ->
  (forall row, In row preds -> List.length row = 2) ->
  exists j col, nth_error classes j = Some 1%Z /\
    select_positive classes preds = Some col /\
    List.length col = List.length preds /\
    forall i row, nth_error preds i = Some row -> nth_error col i = nth_error row j.
Proof.
  intros Hcl Hrows.
  assert (Hj : forall j, j < 2 -> exists col, column j preds = Some col /\
            List.length col = List.length preds /\
            forall i row, nth_error preds i = Some row -> nth_error col i = nth_error row j).
  { intros j Hj; apply column_spec; intros row Hr; rewrite (Hrows row Hr); exact Hj. }
  destruct Hcl as [-> | ->].
  - destruct (Hj 1) as [col [Hc [Hl Hn]]]; [lia|].
    exists 1, col; split; [reflexivity|]; split; [exact Hc|]; split; assumption.
  - destruct (Hj 0) as [col [Hc [Hl Hn]]]; [lia|].
    exists 0, col; split; [reflexivity|]; split; [exact Hc|]; split; assumption.
Qed.

(** [g_nx.nodes[n]]: the attribute dict of node [n], [None] when [n]
    is not a node. *)
Fixpoint attrs_of (st : node_store) (n : node) : option (dict attr_value) :=
  match st with
  | [] => None
  | (m, a) :: r => if Nat.eqb m n then Some a else attrs_of r n
  end.

(** The value of attribute [k] of node [n] once the rows [L] have been
    attached, [old] being its value before: the feature and the type of
    the last row of [n] win, the other attributes are untouched. *)
Definition after_rows (type_attr_name : String.string) (L : list (node * list Z))
    (n : node) (k : String.string) (old : option attr_value) : option attr_value :=
  match hd_error (rev (filter (fun r => Nat.eqb (fst r) n) L)) with
  | Some r =>
      if String.eqb feature_key k then Some (AFeat (snd r))
      else if String.eqb type_attr_name k then Some (AStr paper)
      else old
  | None => old
  end.

Lemma attrs_of_none st n : attrs_of st n = None <-> ~ In n (map fst st).
Proof.
  induction st as [|[m a] r IH]; simpl.
  - tauto.
  - destruct (Nat.eqb_spec m n) as [-> | Hne].
    + split; [discriminate | intros H; exfalso; apply H; left; reflexivity].
    + rewrite IH; split; [intros H [Hm | Hin]; [exact (Hne Hm) | exact (H Hin)] | tauto].
Qed.

Lemma set_node_attr_spec st nid k v :
  In nid (map fst st) ->
  exists st', set_node_attr st nid k v = Some st' /\ map fst st' = map fst st /\
    forall n, attrs_of st' n =
              if Nat.eqb n nid then option_map (fun a => setitem a k v) (attrs_of st n)
              else attrs_of st n.
Proof.
  induction st as [|[m a] r IH]; simpl; intros Hin; [contradiction|].
  destruct (Nat.eqb_spec m nid) as [-> | Hne].
  - eexists; split; [reflexivity|]; split; [reflexivity|].
    intros n; simpl.
    destruct (Nat.eqb_spec nid n) as [-> | Hne']; [rewrite Nat.eqb_refl; reflexivity|].
    destruct (Nat.eqb_spec n nid); [congruence | reflexivity].
  - destruct Hin as [Hm | Hin]; [contradiction|].
    destruct (IH Hin) as [st' [Hs [Hk Ha]]].
    rewrite Hs; eexists; split; [reflexivity|]; split; [simpl; rewrite Hk; reflexivity|].
    intros n; simpl.
    destruct (Nat.eqb_spec m n) as [-> | Hne'].
    + destruct (Nat.eqb_spec n nid); [congruence | reflexivity].
    + apply Ha.
Qed.

Lemma attach_features_spec t L : forall st,
  (forall r, In r L -> In (fst r) (map fst st)) ->
  exists st', attach_features t st L = Some st' /\ map fst st' = map fst st /\
    forall n a, attrs_of st n = Some a ->
      exists a', attrs_of st' n = Some a' /\
        forall k, lookup a' k = after_rows t L n k (lookup a k).
Proof.
  induction L as [|[nid f] rest IH]; intros st HL; simpl.
  - exists st; split; [reflexivity|]; split; [reflexivity|].
    intros n a Ha; exists a; split; [exact Ha | reflexivity].
  - assert (Hnid : In nid (map fst st)) by exact (HL (nid, f) (or_introl eq_refl)).
    destruct (set_node_attr_spec st nid t (AStr paper) Hnid) as [st1 [H1 [K1 A1]]].
    rewrite H1.
    destruct (set_node_attr_spec st1 nid feature_key (AFeat f)) as [st2 [H2 [K2 A2]]];
      [rewrite K1; exact Hnid|].
    rewrite H2.
    destruct (IH st2) as [st' [Hs [K' A']]].
    { intros r Hr; rewrite K2, K1; apply HL; right; exact Hr. }
    exists st'; split; [exact Hs|]; split; [rewrite K', K2, K1; reflexivity|].
    intros n a Ha.
    set (a2 := if Nat.eqb n nid then setitem (setitem a t (AStr paper)) feature_key (AFeat f)
               else a).
    assert (Ha2 : attrs_of st2 n = Some a2).
    { rewrite A2, A1, Ha; unfold a2; destruct (Nat.eqb n nid); reflexivity. }
    destruct (A' n a2 Ha2) as [a' [Ha' Hk]].
    exists a'; split; [exact Ha'|]. intros k; rewrite Hk.
    unfold after_rows, a2; simpl filter.
    destruct (Nat.eqb_spec nid n) as [-> | Hne].
    + rewrite Nat.eqb_refl; simpl rev; rewrite hd_error_app_single.
      destruct (hd_error (rev (filter (fun r => Nat.eqb (fst r) n) rest)));
        rewrite !lookup_setitem;
        destruct (String.eqb feature_key k), (String.eqb t k); reflexivity.
    + destruct (Nat.eqb_spec n nid); [congruence | reflexivity].
Qed.

Lemma combine_fst_snd {A B : Type} (L : list (A * B)) :
  combine (map fst L) (map snd L) = L.
Proof. induction L as [|[a b] r IH]; simpl; [reflexivity | rewrite IH; reflexivity]. Qed.

Lemma mem_true_iff v l : mem v l = true <-> In v l.
Proof.
  unfold mem; rewrite existsb_exists; split.
  - intros [x [Hx Heq]]; apply Nat.eqb_eq in Heq; subst x; exact Hx.
  - intros Hin; exists v; split; [exact Hin | apply Nat.eqb_refl].
Qed.

Lemma filter_keep_graph_rows (vs : list node) n L :
  In n vs ->
  filter (fun r => Nat.eqb (fst r) n) (keep_graph_rows vs L)
  = filter (fun r => Nat.eqb (fst r) n) L.
Proof.
  intros Hn; unfold keep_graph_rows.
  induction L as [|r rest IH]; simpl; [reflexivity|].
  destruct (mem (fst r) vs) eqn:Hm; simpl.
  - rewrite IH; reflexivity.
  - match goal with |- context [if ?c then _ else _] => destruct c eqn:Heq end;
      [|exact IH].
    apply Nat.eqb_eq in Heq; apply mem_true_iff in Hn; rewrite <- Heq in Hn.
    unfold node in Hm; congruence.
Qed.

(** Cells 9, 13 and 16 of the GraphSAGE notebook never raise KeyError:
    after keeping only the rows of nodes of the graph, every node
    lookup of the attribute loop succeeds.  The node set is unchanged; a
    node with rows in [node_data] gets the features of its last row and
    the type "paper", its other attributes are kept; a node without rows
    keeps all its attributes; rows of other ids are ignored. *)
Theorem add_node_data_spec t st node_data :
  exists st', add_node_data t st node_data = Some st' /\
    map fst st' = map fst st /\
    forall n,
      (attrs_of st n = None -> attrs_of st' n = None) /\
      forall a, attrs_of st n = Some a ->
        exists a', attrs_of st' n = Some a' /\
          forall k, lookup a' k = after_rows t node_data n k (lookup a k).
Proof.
  unfold add_node_data; rewrite combine_fst_snd.
  destruct (attach_features_spec t (keep_graph_rows (map fst st) node_data) st)
    as [st' [Hs [Hk Ha]]].
  { intros r Hr; unfold keep_graph_rows in Hr; apply filter_In in Hr as [_ Hm].
    apply mem_true_iff; exact Hm. }
  exists st'; split; [exact Hs|]; split; [exact Hk|].
  intros n; split.
  - rewrite !attrs_of_none, Hk; tauto.
  - intros a Hn; destruct (Ha n a Hn) as [a' [Ha' Hl]].
    exists a'; split; [exact Ha'|]. intros k; rewrite Hl.
    unfold after_rows; rewrite filter_keep_graph_rows; [reflexivity|].
    destruct (In_dec Nat.eq_dec n (map fst st)) as [Hin | Hnin]; [exact Hin|].
    apply attrs_of_none in Hnin; congruence.
Qed.

End LoadingFacts.

Module EdgeFeaturesMore.

Import EdgeFeatures EdgeFeaturesFacts.
Open Scope R_scope.

Lemma ewise_length (f : R -> R -> R) (u v w : vec) :
  List.length u = List.length v -> ewise f u v = Some w -> List.length w = List.length u.
Proof.
  intros H Hw; destruct (ewise_some_eq_length f u v H) as [w' [Hw' Hl]].
  rewrite Hw in Hw'; injection Hw' as ->; exact Hl.
Qed.

Lemma operators_length (u v : vec) :
  List.length u = List.length v ->
  forall op, In op [operator_hadamard; operator_avg; operator_l1; operator_l2] ->
  exists w, op u v = Some w /\ List.length w = List.length u.
Proof.
  intros H op Hop.
  destruct (ewise_some_eq_length Rmult u v H) as [w1 [H1 L1]].
  destruct (ewise_some_eq_length Rplus u v H) as [w2 [H2 L2]].
  destruct (ewise_some_eq_length Rminus u v H) as [w3 [H3 L3]].
  destruct Hop as [<- | [<- | [<- | [<- | []]]]];
    unfold operator_hadamard, operator_avg, operator_l1, operator_l2, emap;
    [rewrite H1 | rewrite H2 | rewrite H3 | rewrite H3]; eexists;
    (split; [reflexivity|]); rewrite ?length_map; assumption.
Qed.

(** When both nodes of every pair have an embedding of the same
    dimension [d], [transform] with any of the four operators succeeds
    and returns one row of dimension [d] per pair. *)
Theorem transform_shape {Node : Type} (model : Node -> option vec)
    (edge_data : list (Node * Node)) (d : nat) :
  (forall ids, In ids edge_data ->
     exists u v, model (fst ids) = Some u /\ model (snd ids) = Some v /\
                 List.length u = d /\ List.length v = d) ->
  forall op, In op [operator_hadamard; operator_avg; operator_l1; operator_l2] ->
  exists X, transform model edge_data op = Some X /\
    List.length X = List.length edge_data /\
    forall row, In row X -> List.length row = d.
Proof.
  intros Hm op Hop; induction edge_data as [|[a b] rest IH]; simpl.
  - exists []; split; [reflexivity|]; split; [reflexivity | intros _ []].
  - destruct (Hm (a, b) (or_introl eq_refl)) as [u [v [Hu [Hv [Lu Lv]]]]].
    simpl in Hu, Hv; rewrite Hu, Hv.
    destruct (operators_length u v (eq_trans Lu (eq_sym Lv)) op Hop) as [w [Hw Lw]].
    destruct IH as [X [HX [LX RX]]]; [intros ids Hi; apply Hm; right; exact Hi|].
    rewrite Hw, HX; exists (w :: X); split; [reflexivity|]; split; [simpl; lia|].
    intros row [<- | Hr]; [lia | apply RX; exact Hr].
Qed.

(** A node of [edge_data] without an embedding (KeyError on
    [model[...]]) makes [transform] fail, whatever the operator. *)
Theorem transform_key_error {Node : Type} (model : Node -> option vec)
    (edge_data : list (Node * Node)) op ids :
  In ids edge_data -> (model (fst ids) = None \/ model (snd ids) = None) ->
  transform model edge_data op = None.
Proof.
  intros Hin Hnone; induction edge_data as [|[a b] rest IH]; [destruct Hin|].
  simpl; destruct Hin as [<- | Hin].
  - simpl in Hnone; destruct Hnone as [-> | ->]; [reflexivity|].
    destruct (model a); reflexivity.
  - rewrite (IH Hin).
    destruct (model a), (model b); try reflexivity.
    destruct (op v v0); reflexivity.
Qed.

(** [transform] over concatenated pair lists concatenates the rows. *)
Theorem transform_app {Node : Type} (model : Node -> option vec)
    (l1 l2 : list (Node * Node)) op :
  transform model (l1 ++ l2) op =
  match transform model l1 op, transform model l2 op with
  | Some X1, Some X2 => Some (X1 ++ X2)
  | _, _ => None
  end.
Proof.
  induction l1 as [|[a b] rest IH]; simpl.
  - destruct (transform model l2 op); reflexivity.
  - rewrite IH.
    destruct (model a), (model b); try reflexivity;
      destruct (op v v0), (transform model rest op), (transform model l2 op); reflexivity.
Qed.

(** The L1 and L2 edge features have no negative coordinate. *)
Theorem l1_l2_nonnegative (u v w : vec) :
  (operator_l1 u v = Some w \/ operator_l2 u v = Some w) ->
  forall x, In x w -> 0 <= x.
Proof.
  unfold operator_l1, operator_l2, emap.
  intros [H | H]; destruct (ewise Rminus u v) as [z|]; try discriminate;
    injection H as <-; intros x Hx; apply in_map_iff in Hx as [y [<- _]].
  - apply Rabs_pos.
  - simpl; rewrite Rmult_1_r; apply Rle_0_sqr.
Qed.

(** The L2 feature is the coordinatewise square of the L1 feature. *)
Theorem l2_is_square_of_l1 (u v : vec) :
  operator_l2 u v = emap (fun x => x ^ 2) (operator_l1 u v).
Proof.
  unfold operator_l2, operator_l1, emap.
  destruct (ewise Rminus u v) as [z|]; [|reflexivity].
  simpl; f_equal; rewrite map_map; apply map_ext; intros x.
  simpl; rewrite !Rmult_1_r; rewrite <- Rabs_mult; symmetry; apply Rabs_pos_eq.
  apply Rle_0_sqr.
Qed.

(** A node paired with itself: zero L1 and L2 features, its own
    embedding as average, and the squares of its coordinates as
    Hadamard feature. *)
Theorem operators_on_same_vector (u : vec) :
  operator_l1 u u = Some (map (fun _ => 0) u) /\
  operator_l2 u u = Some (map (fun _ => 0) u) /\
  operator_avg u u = Some u /\
  operator_hadamard u u = Some (map (fun x => x * x) u).
Proof.
  unfold operator_l1, operator_l2, operator_avg, operator_hadamard, ewise, emap.
  rewrite Nat.eqb_refl; simpl.
  assert (Hc : forall (g : R -> R -> R), map (fun xy => g (fst xy) (snd xy)) (combine u u)
                                         = map (fun x => g x x) u).
  { intros g; induction u as [|a r IH]; simpl; [reflexivity | rewrite IH; reflexivity]. }
  rewrite !Hc, !map_map.
  repeat split; f_equal.
  - apply map_ext; intros x; unfold Rminus; rewrite Rplus_opp_r; apply Rabs_R0.
  - apply map_ext; intros x; unfold Rminus; rewrite Rplus_opp_r; ring.
  - rewrite <- (map_id u) at 2; apply map_ext; intros x; field.
Qed.


End EdgeFeaturesMore.

(** ** Instances of the theorems on concrete inputs *)

Module Witnesses.

Import EdgeSplitter EdgeSplitterFacts Loading LoadingFacts EdgeFeatures EdgeFeaturesMore.
Import String.
Local Open Scope string_scope.
Local Open Scope nat_scope.

Definition rows2 : list (list cell) :=
  [[CInt 35; CInt 0; CStr "Theory"]; [CInt 40; CStr "AI"]; [CInt 35; CStr "Rule_Learning"]].

Definition values2 : dict cell :=
  [("35", CStr "Rule_Learning"); ("40", CStr "AI")].

Lemma values_lookup_last_row_witness :
  values rows2 = Some values2 /\
  lookup values2 "35" = Some (CStr "Rule_Learning").
Proof.
  split; [vm_compute; reflexivity|].
  rewrite (values_lookup_last_row rows2 values2 "35"); [vm_compute; reflexivity|].
  vm_compute; reflexivity.
Defined.

Lemma values_keys_witness :
  values rows2 = Some values2 /\ NoDup (map fst values2).
Proof.
  split; [vm_compute; reflexivity|].
  apply (values_keys rows2 values2); vm_compute; reflexivity.
Defined.

Lemma select_positive_class_one_witness :
  ([1%Z; 0%Z] = [0%Z; 1%Z] \/ [1%Z; 0%Z] = [1%Z; 0%Z]) /\
  (forall row, In row [[3; 7]; [5; 5]] -> List.length row = 2) /\
  exists j col, nth_error [1%Z; 0%Z] j = Some 1%Z /\
    select_positive [1%Z; 0%Z] [[3; 7]; [5; 5]] = Some col /\
    List.length col = 2 /\
    forall i row, nth_error [[3; 7]; [5; 5]] i = Some row -> nth_error col i = nth_error row j.
Proof.
  assert (H1 : [1%Z; 0%Z] = [0%Z; 1%Z] \/ [1%Z; 0%Z] = [1%Z; 0%Z]) by (right; reflexivity).
  assert (H2 : forall row, In row [[3; 7]; [5; 5]] -> List.length row = 2)
    by (intros row [<- | [<- | []]]; reflexivity).
  split; [exact H1|]; split; [exact H2|].
  exact (select_positive_class_one [1%Z; 0%Z] [[3; 7]; [5; 5]] H1 H2).
Defined.

Definition model2 (n : nat) : option vec :=
  if Nat.eqb n 0 then Some [1%R; 2%R] else if Nat.eqb n 1 then Some [3%R; 5%R] else None.

Lemma transform_shape_witness :
  (forall ids, In ids [(0, 1); (1, 0)] ->
     exists u v, model2 (fst ids) = Some u /\ model2 (snd ids) = Some v /\
                 List.length u = 2 /\ List.length v = 2) /\
  exists X, transform model2 [(0, 1); (1, 0)] operator_l2 = Some X /\
    List.length X = 2 /\ forall row, In row X -> List.length row = 2.
Proof.
  assert (H : forall ids, In ids [(0, 1); (1, 0)] ->
     exists u v, model2 (fst ids) = Some u /\ model2 (snd ids) = Some v /\
                 List.length u = 2 /\ List.length v = 2).
  { intros ids [<- | [<- | []]]; do 2 eexists; repeat split. }
  split; [exact H|].
  apply (transform_shape model2 [(0, 1); (1, 0)] 2 H operator_l2); simpl; auto.
Defined.

Lemma transform_key_error_witness :
  In (0, 7) [(0, 1); (0, 7)] /\ (model2 0 = None \/ model2 7 = None) /\
  transform model2 [(0, 1); (0, 7)] operator_hadamard = None.
Proof.
  assert (H1 : In (0, 7) [(0, 1); (0, 7)]) by (right; left; reflexivity).
  assert (H2 : model2 0 = None \/ model2 7 = None) by (right; reflexivity).
  split; [exact H1|]; split; [exact H2|].
  exact (transform_key_error model2 _ operator_hadamard (0, 7) H1 H2).
Defined.

Lemma l1_l2_nonnegative_witness :
  operator_l1 [1%R] [2%R] = Some [Rabs (1 - 2)] /\ (0 <= Rabs (1 - 2))%R.
Proof.
  assert (H : operator_l1 [1%R] [2%R] = Some [Rabs (1 - 2)]) by reflexivity.
  split; [exact H|].
  apply (l1_l2_nonnegative [1%R] [2%R] [Rabs (1 - 2)] (or_introl H)); left; reflexivity.
Defined.


Definition n2v_stages : list (list sample) :=
  [[((0, 1), 1); ((1, 3), 0)]; [((2, 3), 1); ((1, 4), 0)]; [((3, 4), 1); ((2, 4), 0)]].

Lemma node2vec_chain_negatives_avoid_witness :
  node2vec_chain g5 (mkRandomness [(0, 1)] [(1, 3)])
    (mkRandomness [(2, 3)] [(0, 1); (1, 4)])
    (mkRandomness [(3, 4)] [(0, 1); (2, 4)]) = Ok n2v_stages /\
  negatives_avoid g5 n2v_stages.
Proof.
  assert (H : node2vec_chain g5 (mkRandomness [(0, 1)] [(1, 3)])
    (mkRandomness [(2, 3)] [(0, 1); (1, 4)])
    (mkRandomness [(3, 4)] [(0, 1); (2, 4)]) = Ok n2v_stages) by (vm_compute; reflexivity).
  split; [exact H|].
  exact (node2vec_chain_negatives_avoid g5 _ _ _ n2v_stages H).
Defined.

End Witnesses.
